(** * BlindEscrow: the escrow authorisation policy of src/contracts/agriblock.ts

    A shallow embedding of the sCrypt contract [BlindEscrow] and of the
    byte-string built-ins of scrypt-ts it calls, followed by the properties
    of its public methods [buyCrops], [sellCrops] and [spend]; then the
    class [CropMarket] of the same file, with [sellCrop] and [buyCrop].

    The cryptographic primitives ([hash160], [hash256], the secp256k1
    verifier and the transaction signature check) belong to the chain's
    library; they are Section variables, so every theorem holds for every
    implementation of them. *)

From Stdlib Require Import ZArith List Bool Lia.
From Stdlib.Strings Require Import String Ascii Byte.
From Stdlib Require Floats DecimalString.
Import ListNotations.

Local Open Scope Z_scope.

(* ================================================================= *)
(** ** Byte strings *)

(** scrypt-ts represents a [ByteString] by its hex text; here it is the
    list of the bytes that text denotes.  [PubKey], [PubKeyHash] and
    [Sig] are branded [ByteString]s. *)
Definition ByteString := list byte.
Definition PubKey := ByteString.
Definition PubKeyHash := ByteString.
Definition Sig := ByteString.

(** [Signature] and [Point] of scrypt-ts-lib: pairs of bigints. *)
Record Signature := { r : Z; s : Z }.
Record Point := { x : Z; y : Z }.

Definition byte2Z (b : byte) : Z := Z.of_N (Byte.to_N b).

Definition Z2byte (z : Z) : byte :=
  match Byte.of_N (Z.to_N (z mod 256)) with
  | Some b => b
  | None => x00
  end.

(** [==] on two byte strings. *)
Fixpoint bytes_eqb (a b : ByteString) : bool :=
  match a, b with
  | [], [] => true
  | c :: a', d :: b' => Byte.eqb c d && bytes_eqb a' b'
  | _, _ => false
  end.

Infix "==?" := bytes_eqb (at level 70, no associativity).

(** *** Hex literals *)

Definition hexDigit (c : ascii) : option Z :=
  let n := Z.of_N (N_of_ascii c) in
  if (48 <=? n) && (n <=? 57) then Some (n - 48)
  else if (97 <=? n) && (n <=? 102) then Some (n - 87)
  else if (65 <=? n) && (n <=? 70) then Some (n - 55)
  else None.

(** [toByteString(hex)]: two hex digits per byte; the library rejects any
    other text, which is [None] here. *)
Fixpoint toByteString (hex : string) : option ByteString :=
  match hex with
  | EmptyString => Some []
  | String c1 (String c2 rest) =>
      match hexDigit c1, hexDigit c2, toByteString rest with
      | Some h, Some l, Some bs => Some (Z2byte (16 * h + l) :: bs)
      | _, _, _ => None
      end
  | String _ EmptyString => None
  end.

(** A literal of the source, [toByteString('..')] on well-formed text. *)
Definition lit (hex : string) : ByteString :=
  match toByteString hex with
  | Some bs => bs
  | None => []
  end.

(** *** Integers and byte strings *)

(** Little-endian unsigned value of a byte string. *)
Fixpoint le_unsigned (b : ByteString) : Z :=
  match b with
  | [] => 0
  | c :: rest => byte2Z c + 256 * le_unsigned rest
  end.

(** Big-endian unsigned value of a byte string. *)
Definition be_unsigned (b : ByteString) : Z :=
  fold_left (fun acc c => 256 * acc + byte2Z c) b 0.

(** The [fuel] least significant bytes of the magnitude [n], stopping at
    the most significant non-zero byte. *)
Fixpoint le_magnitude (fuel : nat) (n : Z) : ByteString :=
  match fuel with
  | O => []
  | S fuel' =>
      if n <=? 0 then []
      else Z2byte (n mod 256) :: le_magnitude fuel' (n / 256)
  end.

(** Sign-magnitude: the sign is the top bit of the most significant
    byte; a magnitude that already uses that bit gets one more byte. *)
Definition withSign (neg : bool) (mag : ByteString) : ByteString :=
  match rev mag with
  | [] => []
  | msb :: lower =>
      if 128 <=? byte2Z msb
      then mag ++ [if neg then x80 else x00]
      else if neg then rev (Z2byte (byte2Z msb + 128) :: lower) else mag
  end.

(** [int2ByteString(n)] without a size: the number in as few bytes as
    possible, little-endian sign-magnitude (the script number encoding);
    zero is the empty byte string. *)
Definition int2ByteString (n : Z) : ByteString :=
  withSign (n <? 0) (le_magnitude (S (Z.to_nat (Z.log2 (Z.abs n)))) (Z.abs n)).

(** [byteString2Int(b)]: the inverse reading, little-endian
    sign-magnitude; the empty byte string is zero. *)
Definition byteString2Int (b : ByteString) : Z :=
  match rev b with
  | [] => 0
  | msb :: lower =>
      if 128 <=? byte2Z msb
      then - le_unsigned (rev (Z2byte (byte2Z msb - 128) :: lower))
      else le_unsigned b
  end.

(** [reverseByteString(b, size)]: the bytes of [b], last byte first.
    The library throws when [b] is not [size] bytes long; the model is
    exact where the length is [size], as it is for the digests of
    [hash256] with [size] 32, and elsewhere reverses the first [size]
    bytes. *)
Definition reverseByteString (b : ByteString) (size : Z) : ByteString :=
  rev (firstn (Z.to_nat size) b).

(* ================================================================= *)
(** ** The contract *)

(** The four [@prop()] fields, fixed by the constructor. *)
Record BlindEscrow := {
  seller : PubKeyHash;
  buyer : PubKeyHash;
  arbiter : PubKeyHash;
  escrowNonce : ByteString
}.

Definition constructor (seller buyer arbiter : PubKeyHash)
    (escrowNonce : ByteString) : BlindEscrow :=
  {| seller := seller; buyer := buyer; arbiter := arbiter;
     escrowNonce := escrowNonce |}.

Definition RELEASE_BY_SELLER : Z := 0.
Definition RELEASE_BY_ARBITER : Z := 1.
Definition RETURN_BY_BUYER : Z := 2.
Definition RETURN_BY_ARBITER : Z := 3.

(** *** Public methods as computations over the instance

    A public method reads [this], may stop at a failed [assert], and
    otherwise runs to its end.  The instance is threaded through, so a
    write to a field would show in the result.  [Exited] is how a run
    would end at an [exit] that stops the script. *)
Inductive Outcome (A : Type) : Type :=
| Returned (a : A)
| Exited (status : bool)
| AssertFailed (msg : string).
Arguments Returned {A} a.
Arguments Exited {A} status.
Arguments AssertFailed {A} msg.

Definition Method (A : Type) : Type := BlindEscrow -> Outcome A * BlindEscrow.

Definition ret {A : Type} (a : A) : Method A := fun this => (Returned a, this).

Definition bind {A B : Type} (m : Method A) (k : A -> Method B) : Method B :=
  fun this =>
    match m this with
    | (Returned a, this') => k a this'
    | (Exited status, this') => (Exited status, this')
    | (AssertFailed msg, this') => (AssertFailed msg, this')
    end.

Notation "x <- m ;; k" := (bind m (fun x => k))
  (at level 61, m at next level, right associativity).
Notation "' pat <- m ;; k" := (bind m (fun x => match x with pat => k end))
  (at level 61, pat pattern, m at next level, right associativity).
Notation "m ;; k" := (bind m (fun _ => k))
  (at level 61, right associativity).

Definition get_this : Method BlindEscrow := fun this => (Returned this, this).

(** [assert(cond, msg)]. *)
Definition assert (cond : bool) (msg : string) : Method unit :=
  fun this => if cond then (Returned tt, this) else (AssertFailed msg, this).

(** [exit(status)].  In the compiled script it ends the run with
    [status]; the function of the library that a run of the TypeScript
    calls has an empty body and returns, so the method goes on with the
    statement after it.  The model follows the run of the TypeScript, as
    it does for the messages of [assert]. *)
Definition exit (status : bool) : Method unit :=
  fun this => (Returned tt, this).

(** The spend is authorised when the method runs to its end, or stops at
    [exit(true)]. *)
Definition succeeds {A : Type} (res : Outcome A * BlindEscrow) : bool :=
  match fst res with
  | Returned _ => true
  | Exited status => status
  | AssertFailed _ => false
  end.

(** The rejections of [spend], under the names of the error taxonomy.
    [InvalidAction] is the rejection an [exit(false)] that stops the
    script would give. *)
Definition InvalidAction : Outcome unit := Exited false.
Definition SpenderIdentityMismatch : Outcome unit :=
  AssertFailed "Wrong spender pub key".
Definition OracleIdentityMismatch : Outcome unit :=
  AssertFailed "Wrong oracle pub key".
Definition OracleSignatureInvalid : Outcome unit :=
  AssertFailed "Oracle sig invalid".
Definition SpenderSignatureInvalid : Outcome unit :=
  AssertFailed "Spender sig invalid".

(** [this.escrowNonce + int2ByteString(action)] (line 107). *)
Definition oracleMsg (escrowNonce : ByteString) (action : Z) : ByteString :=
  escrowNonce ++ int2ByteString action.

Section Contract.

(** The primitives of the chain's library. *)
Variable hash160 : ByteString -> PubKeyHash.
Variable hash256 : ByteString -> ByteString.
Variable pubKey2Point : PubKey -> Point.
Variable verifySig : Z -> Signature -> Point -> bool.
Variable checkSig : Sig -> PubKey -> bool.

Definition buyCrops (crops : ByteString) : Method unit :=
  assert (hash256 crops ==? crops) "incorrect type".

Definition sellCrops (crops : ByteString) : Method unit :=
  assert (hash256 crops ==? crops) "incorrect price".

(** Lines 77-100 of [spend]: the two locals start as twenty zero bytes
    and are loaded from the fields the action selects. *)
Definition loadAddresses (action : Z) : Method (PubKeyHash * PubKeyHash) :=
  let spender : PubKeyHash := lit "0000000000000000000000000000000000000000" in
  let oracle : PubKeyHash := lit "0000000000000000000000000000000000000000" in
  this <- get_this ;;
  if action =? RELEASE_BY_SELLER then
    ret (buyer this, seller this)
  else if action =? RELEASE_BY_ARBITER then
    ret (buyer this, arbiter this)
  else if action =? RETURN_BY_BUYER then
    ret (seller this, buyer this)
  else if action =? RETURN_BY_ARBITER then
    ret (seller this, arbiter this)
  else
    (exit false ;; ret (spender, oracle)).

(** [byteString2Int(reverseByteString(hash256(oracleMsg), 32n) +
    toByteString('00'))] (lines 108-110). *)
Definition hashInt (escrowNonce : ByteString) (action : Z) : Z :=
  byteString2Int
    (reverseByteString (hash256 (oracleMsg escrowNonce action)) 32
       ++ lit "00").

Definition spend (spenderSig : Sig) (spenderPubKey : PubKey)
    (oracleSig : Signature) (oraclePubKey : PubKey) (action : Z)
    : Method unit :=
  ' (spender, oracle) <- loadAddresses action ;;
  assert (hash160 spenderPubKey ==? spender) "Wrong spender pub key" ;;
  assert (hash160 oraclePubKey ==? oracle) "Wrong oracle pub key" ;;
  this <- get_this ;;
  assert (verifySig (hashInt (escrowNonce this) action) oracleSig
            (pubKey2Point oraclePubKey)) "Oracle sig invalid" ;;
  assert (checkSig spenderSig spenderPubKey) "Spender sig invalid".

(** A call of one of the three public methods. *)
Inductive Call : Type :=
| CallBuyCrops (crops : ByteString)
| CallSellCrops (crops : ByteString)
| CallSpend (spenderSig : Sig) (spenderPubKey : PubKey)
    (oracleSig : Signature) (oraclePubKey : PubKey) (action : Z).

Definition invoke (c : Call) : Method unit :=
  match c with
  | CallBuyCrops crops => buyCrops crops
  | CallSellCrops crops => sellCrops crops
  | CallSpend sg pk osg opk action => spend sg pk osg opk action
  end.

(** The instance after a sequence of calls, whatever their outcomes. *)
Fixpoint after (calls : list Call) (this : BlindEscrow) : BlindEscrow :=
  match calls with
  | [] => this
  | c :: rest => after rest (snd (invoke c this))
  end.

End Contract.

(* ================================================================= *)
(** ** The identity table and the cryptographic assumptions *)

(** The four enumerants and the table that maps each of them to the
    party that must spend and the party that must stamp.  This is the
    stated policy; [loadAddresses] above is what the contract does. *)
Inductive Action : Type :=
| ReleaseBySeller
| ReleaseByArbiter
| ReturnByBuyer
| ReturnByArbiter.

Definition actionCode (a : Action) : Z :=
  match a with
  | ReleaseBySeller => 0
  | ReleaseByArbiter => 1
  | ReturnByBuyer => 2
  | ReturnByArbiter => 3
  end.

Inductive Party : Type := Seller | Buyer | Arbiter.

Definition partyHash (this : BlindEscrow) (p : Party) : PubKeyHash :=
  match p with
  | Seller => seller this
  | Buyer => buyer this
  | Arbiter => arbiter this
  end.

Definition spenderIdentity (a : Action) : Party :=
  match a with
  | ReleaseBySeller | ReleaseByArbiter => Buyer
  | ReturnByBuyer | ReturnByArbiter => Seller
  end.

Definition oracleIdentity (a : Action) : Party :=
  match a with
  | ReleaseBySeller => Seller
  | ReturnByBuyer => Buyer
  | ReleaseByArbiter | ReturnByArbiter => Arbiter
  end.

(** An action code in {0,1,2,3}. *)
Definition validAction (action : Z) : Prop := 0 <= action <= 3.

(** The double hash yields 32-byte digests. *)
Definition digests32 (hash256 : ByteString -> ByteString) : Prop :=
  forall m, List.length (hash256 m) = 32%nat.


(** The twenty zero bytes the two locals of [spend] start from. *)
Definition zeroHash : PubKeyHash :=
  lit "0000000000000000000000000000000000000000".


(* ================================================================= *)
(** ** A small instance of the primitives, to run the contract *)

Module Toy.

(** The message cut or zero-padded to [n] bytes. *)
Definition pad (n : nat) (m : ByteString) : ByteString :=
  firstn n (m ++ repeat x00 n).

Definition hash160 (m : ByteString) : PubKeyHash := pad 20 m.
Definition hash256 (m : ByteString) : ByteString := pad 32 m.

Definition pubKey2Point (k : PubKey) : Point :=
  {| x := le_unsigned k; y := 0 |}.

(** The stamp of the key with point [P] over [h] is [h + x P]. *)
Definition verifySig (h : Z) (sg : Signature) (P : Point) : bool :=
  r sg =? h + x P.

Definition stamp (h : Z) (k : PubKey) : Signature :=
  {| r := h + x (pubKey2Point k); s := 0 |}.

(** A transaction signature is accepted when it repeats the key. *)
Definition checkSig (sg : Sig) (k : PubKey) : bool := sg ==? k.

Definition sellerKey : PubKey := [x04; xa1].
Definition buyerKey : PubKey := [x04; xb2].
Definition arbiterKey : PubKey := [x04; xc3].

Definition nonce : ByteString := lit "001122334455aabbcc".

Definition escrow : BlindEscrow :=
  constructor (hash160 sellerKey) (hash160 buyerKey) (hash160 arbiterKey)
    nonce.

Definition spend := spend hash160 hash256 pubKey2Point verifySig checkSig.
Definition hashInt := hashInt hash256.





End Toy.

(** A verifier that reads the integer modulo the order of the group, as
    the verification of ECDSA does, and a double hash with 32-byte digests
    whose digests of two chosen messages are 5 and 5 + order. *)
Module ModN.

(** The order of secp256k1. *)
Definition order : Z :=
  0xFFFFFFFFFFFFFFFFFFFFFFFFFFFFFFFEBAAEDCE6AF48A03BBFD25E8CD0364141.

Fixpoint le_bytes (n : nat) (z : Z) : ByteString :=
  match n with
  | O => []
  | S n' => Z2byte (z mod 256) :: le_bytes n' (z / 256)
  end.

(** The 32 bytes of [z], most significant first. *)
Definition be32 (z : Z) : ByteString := rev (le_bytes 32 z).

Definition hash256 (m1 m2 : ByteString) (m : ByteString) : ByteString :=
  if m ==? m1 then be32 5
  else if m ==? m2 then be32 (5 + order)
  else Toy.hash256 m.

(** The stamp of the key with point [P] over [h] is [h + x P] modulo the
    order. *)
Definition verifySig (h : Z) (sg : Signature) (P : Point) : bool :=
  r sg =? (h mod order + x P) mod order.

Definition stamp (h : Z) (k : PubKey) : Signature :=
  {| r := (h mod order + x (Toy.pubKey2Point k)) mod order; s := 0 |}.




End ModN.

(* ================================================================= *)
(** ** The crop market

    The class [CropMarket] of the same file: an object of crops keyed by
    a running id, with [sellCrop] and [buyCrop].  Its numbers are
    JavaScript numbers; the operations the class applies to them are
    Section variables, so the theorems hold for the IEEE doubles of the
    language as for any other implementation. *)

Module CropMarket.

Section Numbers.

Variable number : Type.
(** The literals [0], [1] and [0.02]. *)
Variable zero one c002 : number.
(** [a <= b] and [a < b]; [a > b] is [b < a]. *)
Variable leb ltb : number -> number -> bool.
(** [a + b], [a - b], [a * b] and [Math.floor(a)]. *)
Variable add sub mul : number -> number -> number.
Variable floor : number -> number.
(** The property key a number indexes an object with. *)
Variable toKey : number -> string.

Record Crop := {
  name : string;
  weight : number;
  pricePerUnit : number;
  seller : string
}.

(** [crops: Record<number, Crop>]: the own properties of the object, at
    most one per key.  Each crop object is reachable under one key only,
    as [sellCrop] makes it. *)
Definition Crops := list (string * Crop).

Fixpoint lookup (k : string) (m : Crops) : option Crop :=
  match m with
  | [] => None
  | (k', v) :: m' => if String.eqb k k' then Some v else lookup k m'
  end.

(** [m[k] = v]: replaces the property [k], or adds it. *)
Fixpoint store (k : string) (v : Crop) (m : Crops) : Crops :=
  match m with
  | [] => [(k, v)]
  | (k', v') :: m' =>
      if String.eqb k k' then (k, v) :: m' else (k', v') :: store k v m'
  end.

Record CropMarket := {
  crops : Crops;
  cropId : number
}.

(** [new CropMarket()]. *)
Definition new : CropMarket := {| crops := []; cropId := zero |}.

(** A line written by [console.log]. *)
Inductive Console : Type :=
| LogCropAdded (cropId : number) (name : string) (weight pricePerUnit : number)
    (seller : string)
| LogCropSold (cropId weight totalPrice : number) (buyer : string)
| LogTransfer (amount : number) (to : string).

Inductive Completion : Type :=
| Normal
| Throw (message : string).

(** A call yields how it completed, the market it leaves, and the lines
    it logged, in order. *)
Definition Run : Type := Completion * CropMarket * list Console.

Definition emitCropAdded (cropId : number) (name : string)
    (weight pricePerUnit : number) (seller : string) : list Console :=
  [LogCropAdded cropId name weight pricePerUnit seller].

Definition emitCropSold (cropId weight totalPrice : number) (buyer : string)
    : list Console :=
  [LogCropSold cropId weight totalPrice buyer].

Definition transferFunds (to : string) (amount : number) : list Console :=
  [LogTransfer amount to].

Definition sellCrop (name : string) (weight pricePerUnit : number)
    (seller : string) (this : CropMarket) : Run :=
  if leb weight zero then
    (Throw "Weight must be greater than 0", this, [])
  else if leb pricePerUnit zero then
    (Throw "Price per unit must be greater than 0", this, [])
  else
    let this1 := {| crops := crops this; cropId := add (cropId this) one |} in
    let this2 :=
      {| crops :=
           store (toKey (cropId this1))
             {| name := name; weight := weight;
                pricePerUnit := pricePerUnit; seller := seller |}
             (crops this1);
         cropId := cropId this1 |} in
    (Normal, this2,
     emitCropAdded (cropId this2) name weight pricePerUnit seller).

Definition intermediary : string :=
  "0x5B38Da6a701c568545dCfcB03FcB875f56beddC4".

(** [crop.weight] and [this.cropId], where a parameter of the method
    has the name of the field. *)
Definition weightOf (crop : Crop) : number := weight crop.
Definition cropIdOf (this : CropMarket) : number := cropId this.

Definition buyCrop (cropId : number) (weight : number) (buyer : string)
    (value : number) (this : CropMarket) : Run :=
  match lookup (toKey cropId) (crops this) with
  | None => (Throw "Crop does not exist", this, [])
  | Some crop =>
      if leb weight zero then
        (Throw "Weight must be greater than 0", this, [])
      else if ltb (weightOf crop) weight then
        (Throw "Not enough Weight available", this, [])
      else
        let totalPrice := mul crop.(pricePerUnit) weight in
        let commissionFee := floor (mul totalPrice c002) in
        let amountToSeller := sub totalPrice commissionFee in
        let log1 := transferFunds crop.(seller) amountToSeller in
        let log2 := transferFunds intermediary commissionFee in
        let log3 :=
          if ltb (add totalPrice commissionFee) value then
            transferFunds buyer (sub (sub value totalPrice) commissionFee)
          else [] in
        (* crop.weight -= weight, on the object held in [crops] *)
        let crop' :=
          {| name := crop.(name);
             weight := sub (weightOf crop) weight;
             pricePerUnit := crop.(pricePerUnit);
             seller := crop.(seller) |} in
        let this' :=
          {| crops := store (toKey cropId) crop' (crops this);
             cropId := cropIdOf this |} in
        (Normal, this',
         log1 ++ log2 ++ log3
           ++ emitCropSold cropId weight totalPrice buyer)
  end.

(** A call of one of the two public methods. *)
Inductive Call : Type :=
| SellCrop (name : string) (weight pricePerUnit : number) (seller : string)
| BuyCrop (cropId weight : number) (buyer : string) (value : number).

Definition invoke (c : Call) (this : CropMarket) : Run :=
  match c with
  | SellCrop n w p sl => sellCrop n w p sl this
  | BuyCrop i w b v => buyCrop i w b v this
  end.

(** The market after a sequence of calls whose exceptions are caught. *)
Fixpoint after (calls : list Call) (this : CropMarket) : CropMarket :=
  match calls with
  | [] => this
  | c :: rest => after rest (snd (fst (invoke c this)))
  end.

End Numbers.

End CropMarket.

(** The doubles of the language, to run the market: the comparison and
    arithmetic are those of IEEE binary64; [floor] rounds through 2^52. *)
Module Float64.

Import PrimFloat.

Definition two52 : float := 0x1p+52%float.

Definition floor (a : float) : float :=
  let m := abs a in
  if eqb a zero then a
  else if ltb m two52 then
    let t := sub (add m two52) two52 in
    if leb zero a then (if ltb a t then sub t one else t)
    else (if ltb t m then opp (add t one) else opp t)
  else a.

Definition numeral (z : Z) : string :=
  DecimalString.NilZero.string_of_int (Z.to_int z).

(** The key of a number.  An integral number has the decimal numeral of
    the language, both zeros the key [0].  The other keys are only ever
    compared: two numbers have the same key here exactly when they have
    the same key in the language, though a fraction is spelled by its
    mantissa and exponent. *)
Definition toKey (a : float) : string :=
  match FloatOps.Prim2SF a with
  | SpecFloat.S754_zero _ => "0"
  | SpecFloat.S754_nan => "NaN"
  | SpecFloat.S754_infinity sg => if sg then "-Infinity" else "Infinity"
  | SpecFloat.S754_finite sg m e =>
      let z := if sg then Z.neg m else Z.pos m in
      if 0 <=? e then numeral (z * 2 ^ e)
      else if Z.pos m mod 2 ^ (- e) =? 0 then numeral (z / 2 ^ (- e))
      else (numeral z ++ "p" ++ numeral e)%string
  end.

(** The literal [0.02], the double nearest to it. *)
Definition c002 : float := 0x1.47ae147ae147bp-6%float.

Definition sellCrop :=
  CropMarket.sellCrop float zero one leb add toKey.
Definition buyCrop :=
  CropMarket.buyCrop float zero c002 leb ltb add sub mul floor toKey.
Definition new := CropMarket.new float zero.

(** The market of the test: 100 units of rice at 50 the unit. *)
Definition rice : CropMarket.CropMarket float :=
  snd (fst (sellCrop "Rice" 100%float 50%float "0x1234567890abcdef" new)).

End Float64.

(* ================================================================= *)
(** ** Properties of the byte-string built-ins *)

(** The documented examples of the two conversions. *)
Example int2ByteString_examples :
  int2ByteString 0 = [] /\ int2ByteString 1 = [x01] /\
  int2ByteString 127 = [x7f] /\ int2ByteString 128 = [x80; x00] /\
  int2ByteString (-1) = [x81] /\ int2ByteString (-129) = [x81; x80] /\
  int2ByteString 256 = [x00; x01].
Proof. repeat split; reflexivity. Qed.

Example byteString2Int_examples :
  byteString2Int [] = 0 /\ byteString2Int [x01] = 1 /\
  byteString2Int [x80; x00] = 128 /\ byteString2Int [x81] = -1 /\
  byteString2Int [x81; x80] = -129 /\ byteString2Int [x00; x01] = 256.
Proof. repeat split; reflexivity. Qed.

Example toByteString_examples :
  toByteString "00" = Some [x00] /\
  toByteString "001122334455aabbcc"
    = Some [x00; x11; x22; x33; x44; x55; xaa; xbb; xcc] /\
  toByteString "0g" = None /\ toByteString "abc" = None.
Proof. repeat split; reflexivity. Qed.

Lemma bytes_eqb_eq (a b : ByteString) : (a ==? b) = true <-> a = b.
Proof.
  revert b; induction a as [|c a IH]; intros [|d b]; simpl;
    try (split; [discriminate | discriminate]); try tauto.
  rewrite andb_true_iff, IH. split.
  - intros [Hc ->]. apply Byte.byte_dec_bl in Hc. now subst.
  - intros [= -> ->]. split; [now apply Byte.byte_dec_lb | reflexivity].
Qed.

Lemma bytes_eqb_refl (a : ByteString) : (a ==? a) = true.
Proof. now apply bytes_eqb_eq. Qed.

Lemma bytes_eqb_neq (a b : ByteString) : (a ==? b) = false <-> a <> b.
Proof.
  rewrite <- bytes_eqb_eq. destruct (a ==? b); split; congruence.
Qed.

Lemma byte2Z_range (b : byte) : 0 <= byte2Z b < 256.
Proof.
  unfold byte2Z. pose proof (Byte.to_N_bounded b). lia.
Qed.


Lemma le_unsigned_app (a b : ByteString) :
  le_unsigned (a ++ b) = le_unsigned a + 256 ^ Z.of_nat (List.length a) * le_unsigned b.
Proof.
  induction a as [|c a IH].
  - cbn [app le_unsigned List.length]. rewrite Z.pow_0_r. lia.
  - cbn [app le_unsigned List.length].
    rewrite IH, Nat2Z.inj_succ, Z.pow_succ_r by lia. ring.
Qed.

Lemma le_unsigned_range (a : ByteString) :
  0 <= le_unsigned a < 256 ^ Z.of_nat (List.length a).
Proof.
  induction a as [|c a IH].
  - cbn [le_unsigned List.length]. rewrite Z.pow_0_r. lia.
  - cbn [le_unsigned List.length]. rewrite Nat2Z.inj_succ, Z.pow_succ_r by lia.
    pose proof (byte2Z_range c). lia.
Qed.


Lemma be_unsigned_snoc (a : ByteString) (c : byte) :
  be_unsigned (a ++ [c]) = 256 * be_unsigned a + byte2Z c.
Proof. unfold be_unsigned. now rewrite fold_left_app. Qed.

Lemma le_unsigned_rev (a : ByteString) : le_unsigned (rev a) = be_unsigned a.
Proof.
  induction a as [|c a IH] using rev_ind.
  - reflexivity.
  - rewrite rev_app_distr, be_unsigned_snoc. cbn [rev app le_unsigned].
    rewrite IH. lia.
Qed.

(** A trailing zero byte makes the reading unsigned. *)
Lemma byteString2Int_pad (a : ByteString) :
  byteString2Int (a ++ [x00]) = le_unsigned a.
Proof.
  unfold byteString2Int. rewrite rev_app_distr. cbn [rev app].
  change (128 <=? byte2Z x00) with false. cbv iota.
  rewrite le_unsigned_app. change (le_unsigned [x00]) with 0. lia.
Qed.

Lemma reverseByteString_full (b : ByteString) (n : Z) :
  Z.of_nat (List.length b) = n -> reverseByteString b n = rev b.
Proof.
  intros <-. unfold reverseByteString. now rewrite Nat2Z.id, firstn_all.
Qed.

(** The encodings of the four action codes. *)
Lemma int2ByteString_action (action : Z) :
  validAction action ->
  int2ByteString action = if action =? 0 then [] else [Z2byte action].
Proof.
  unfold validAction. intros H.
  assert (action = 0 \/ action = 1 \/ action = 2 \/ action = 3)
    as [-> | [-> | [-> | ->]]] by lia; reflexivity.
Qed.

Lemma Toy_digests32 : digests32 Toy.hash256.
Proof.
  intros m. unfold Toy.hash256, Toy.pad.
  rewrite firstn_length_le; [reflexivity |].
  rewrite length_app, repeat_length. lia.
Qed.



(* ================================================================= *)
(** ** Properties of the contract *)

Lemma validAction_code (action : Z) :
  validAction action <-> exists a, action = actionCode a.
Proof.
  unfold validAction. split.
  - intros H.
    assert (action = 0 \/ action = 1 \/ action = 2 \/ action = 3)
      as [-> | [-> | [-> | ->]]] by lia.
    + now exists ReleaseBySeller.
    + now exists ReleaseByArbiter.
    + now exists ReturnByBuyer.
    + now exists ReturnByArbiter.
  - intros [[] ->]; simpl; lia.
Qed.

Lemma oracleMsg_inj_nonce (X Y : ByteString) (action : Z) :
  oracleMsg X action = oracleMsg Y action -> X = Y.
Proof. unfold oracleMsg. apply app_inv_tail. Qed.


Section Properties.

Variable hash160 : ByteString -> PubKeyHash.
Variable hash256 : ByteString -> ByteString.
Variable pubKey2Point : PubKey -> Point.
Variable verifySig : Z -> Signature -> Point -> bool.
Variable checkSig : Sig -> PubKey -> bool.

Local Abbreviation spend' :=
  (spend hash160 hash256 pubKey2Point verifySig checkSig).
Local Abbreviation hashInt' := (hashInt hash256).

Lemma loadAddresses_code (a : Action) (this : BlindEscrow) :
  loadAddresses (actionCode a) this
  = (Returned (partyHash this (spenderIdentity a),
               partyHash this (oracleIdentity a)), this).
Proof. destruct a; reflexivity. Qed.

Lemma loadAddresses_invalid (action : Z) (this : BlindEscrow) :
  ~ validAction action ->
  loadAddresses action this = (Returned (zeroHash, zeroHash), this).
Proof.
  unfold validAction, loadAddresses, bind, get_this, ret, exit,
    RELEASE_BY_SELLER, RELEASE_BY_ARBITER, RETURN_BY_BUYER, RETURN_BY_ARBITER.
  intros H.
  destruct (Z.eqb_spec action 0); [lia |].
  destruct (Z.eqb_spec action 1); [lia |].
  destruct (Z.eqb_spec action 2); [lia |].
  destruct (Z.eqb_spec action 3); [lia |].
  reflexivity.
Qed.

(** The run of [spend] on a valid action: four checks in sequence. *)
Lemma spend_code (a : Action) (this : BlindEscrow) (spenderSig : Sig)
    (spenderPubKey : PubKey) (oracleSig : Signature) (oraclePubKey : PubKey) :
  spend' spenderSig spenderPubKey oracleSig oraclePubKey (actionCode a) this
  = (if hash160 spenderPubKey ==? partyHash this (spenderIdentity a) then
       if hash160 oraclePubKey ==? partyHash this (oracleIdentity a) then
         if verifySig (hashInt' (escrowNonce this) (actionCode a)) oracleSig
              (pubKey2Point oraclePubKey) then
           if checkSig spenderSig spenderPubKey then Returned tt
           else SpenderSignatureInvalid
         else OracleSignatureInvalid
       else OracleIdentityMismatch
     else SpenderIdentityMismatch, this).
Proof.
  unfold spend, bind. rewrite loadAddresses_code.
  unfold assert, get_this.
  destruct (hash160 spenderPubKey ==? _); [| reflexivity].
  destruct (hash160 oraclePubKey ==? _); [| reflexivity].
  destruct (verifySig _ _ _); [| reflexivity].
  destruct (checkSig _ _); reflexivity.
Qed.

(** The run of [spend] on any other action: [exit(false)] returns, and
    the same four checks run against the twenty zero bytes. *)
Lemma spend_invalid (action : Z) (this : BlindEscrow) (spenderSig : Sig)
    (spenderPubKey : PubKey) (oracleSig : Signature) (oraclePubKey : PubKey) :
  ~ validAction action ->
  spend' spenderSig spenderPubKey oracleSig oraclePubKey action this
  = (if hash160 spenderPubKey ==? zeroHash then
       if hash160 oraclePubKey ==? zeroHash then
         if verifySig (hashInt' (escrowNonce this) action) oracleSig
              (pubKey2Point oraclePubKey) then
           if checkSig spenderSig spenderPubKey then Returned tt
           else SpenderSignatureInvalid
         else OracleSignatureInvalid
       else OracleIdentityMismatch
     else SpenderIdentityMismatch, this).
Proof.
  intros H. unfold spend, bind.
  rewrite (loadAddresses_invalid action this H).
  unfold assert, get_this.
  destruct (hash160 spenderPubKey ==? _); [| reflexivity].
  destruct (hash160 oraclePubKey ==? _); [| reflexivity].
  destruct (verifySig _ _ _); [| reflexivity].
  destruct (checkSig _ _); reflexivity.
Qed.





(* --------------------------------------------------------------- *)
(** *** Authorisation *)

(** C1: for each of the four actions, when the spender key hashes to
    the action's spender identity, the oracle key hashes to the action's
    oracle identity, the oracle signature verifies over the integer
    derived from nonce || action code, and the spender signature passes
    the transaction signature check, [spend] runs to its end: the spend
    is authorised. *)
Theorem spend_authorised (a : Action) (this : BlindEscrow)
    (spenderSig : Sig) (spenderPubKey : PubKey)
    (oracleSig : Signature) (oraclePubKey : PubKey) :
  hash160 spenderPubKey = partyHash this (spenderIdentity a) ->
  hash160 oraclePubKey = partyHash this (oracleIdentity a) ->
  verifySig (hashInt' (escrowNonce this) (actionCode a)) oracleSig
    (pubKey2Point oraclePubKey) = true ->
  checkSig spenderSig spenderPubKey = true ->
  spend' spenderSig spenderPubKey oracleSig oraclePubKey (actionCode a) this
    = (Returned tt, this)
  /\ succeeds
       (spend' spenderSig spenderPubKey oracleSig oraclePubKey
          (actionCode a) this) = true.
Proof.
  intros Hs Ho Hv Hc.
  assert (spend' spenderSig spenderPubKey oracleSig oraclePubKey
            (actionCode a) this = (Returned tt, this)) as E.
  { rewrite spend_code, Hs, Ho, !bytes_eqb_refl, Hv, Hc. reflexivity. }
  split; [exact E | now rewrite E].
Qed.

(** C2: the identities [spend] loads for an action are those of the
    table: ReleaseBySeller takes spender = buyer and oracle = seller,
    ReleaseByArbiter spender = buyer and oracle = arbiter, ReturnByBuyer
    spender = seller and oracle = buyer, ReturnByArbiter spender = seller
    and oracle = arbiter, for every instance and every request; and a
    spend that succeeds has presented keys hashing to exactly these. *)
Theorem identity_table (a : Action) (this : BlindEscrow)
    (spenderSig : Sig) (spenderPubKey : PubKey)
    (oracleSig : Signature) (oraclePubKey : PubKey) :
  loadAddresses (actionCode a) this
    = (Returned (partyHash this (spenderIdentity a),
                 partyHash this (oracleIdentity a)), this)
  /\ loadAddresses (actionCode a) this
     = (Returned
          (match a with
           | ReleaseBySeller => (buyer this, seller this)
           | ReleaseByArbiter => (buyer this, arbiter this)
           | ReturnByBuyer => (seller this, buyer this)
           | ReturnByArbiter => (seller this, arbiter this)
           end), this)
  /\ (succeeds
        (spend' spenderSig spenderPubKey oracleSig oraclePubKey
           (actionCode a) this) = true ->
      hash160 spenderPubKey = partyHash this (spenderIdentity a)
      /\ hash160 oraclePubKey = partyHash this (oracleIdentity a)).
Proof.
  split; [apply loadAddresses_code |].
  split; [destruct a; reflexivity |].
  rewrite spend_code. unfold succeeds.
  destruct (hash160 spenderPubKey ==? _) eqn:Es; [| discriminate].
  destruct (hash160 oraclePubKey ==? _) eqn:Eo; [| discriminate].
  intros _. split; now apply bytes_eqb_eq.
Qed.

(** C3, on the code: for an action code outside {0,1,2,3} the else
    branch runs [exit(false)], which returns, and [spend] goes on to its
    four checks with the twenty zero bytes as both identities.  It does
    not end at an InvalidAction rejection: it evaluates [hash160] of the
    spender key and reports a wrong spender key unless that hash is twenty
    zero bytes, and so on through the oracle key and the two signatures. *)
Theorem invalid_action_falls_through (action : Z) (this : BlindEscrow)
    (spenderSig : Sig) (spenderPubKey : PubKey)
    (oracleSig : Signature) (oraclePubKey : PubKey) :
  ~ validAction action ->
  spend' spenderSig spenderPubKey oracleSig oraclePubKey action this
    = (if hash160 spenderPubKey ==? zeroHash then
         if hash160 oraclePubKey ==? zeroHash then
           if verifySig (hashInt' (escrowNonce this) action) oracleSig
                (pubKey2Point oraclePubKey) then
             if checkSig spenderSig spenderPubKey then Returned tt
             else SpenderSignatureInvalid
           else OracleSignatureInvalid
         else OracleIdentityMismatch
       else SpenderIdentityMismatch, this)
  /\ fst (spend' spenderSig spenderPubKey oracleSig oraclePubKey action this)
     <> InvalidAction
  /\ (hash160 spenderPubKey <> zeroHash ->
      spend' spenderSig spenderPubKey oracleSig oraclePubKey action this
      = (SpenderIdentityMismatch, this)).
Proof.
  intros H. rewrite (spend_invalid action this _ _ _ _ H).
  split; [reflexivity |]. split.
  - cbn [fst].
    destruct (_ ==? _); [| discriminate].
    destruct (_ ==? _); [| discriminate].
    destruct (verifySig _ _ _); [| discriminate].
    destruct (checkSig _ _); discriminate.
  - intros Hne. apply bytes_eqb_neq in Hne. now rewrite Hne.
Qed.

(** C7: for every valid action, [spend] fails with the spender-identity
    error exactly when the hash of the spender key differs from the
    required spender hash, and with the oracle-identity error exactly when
    the spender identity matches and the hash of the oracle key differs
    from the required oracle hash; neither depends on the signatures.
    So the right keys in swapped roles, when the two required hashes
    differ, are rejected at the identity step and never accepted. *)
Theorem identity_checks (a : Action) (this : BlindEscrow)
    (spenderSig : Sig) (spenderPubKey : PubKey)
    (oracleSig : Signature) (oraclePubKey : PubKey) :
  let requiredSpender := partyHash this (spenderIdentity a) in
  let requiredOracle := partyHash this (oracleIdentity a) in
  (fst (spend' spenderSig spenderPubKey oracleSig oraclePubKey
          (actionCode a) this) = SpenderIdentityMismatch
   <-> hash160 spenderPubKey <> requiredSpender)
  /\ (fst (spend' spenderSig spenderPubKey oracleSig oraclePubKey
             (actionCode a) this) = OracleIdentityMismatch
      <-> hash160 spenderPubKey = requiredSpender
          /\ hash160 oraclePubKey <> requiredOracle)
  /\ (hash160 spenderPubKey = requiredSpender ->
      hash160 oraclePubKey = requiredOracle ->
      requiredSpender <> requiredOracle ->
      fst (spend' spenderSig oraclePubKey oracleSig spenderPubKey
             (actionCode a) this) = SpenderIdentityMismatch
      /\ succeeds
           (spend' spenderSig oraclePubKey oracleSig spenderPubKey
              (actionCode a) this) = false).
Proof.
  intros requiredSpender requiredOracle.
  split; [| split].
  - rewrite spend_code. fold requiredSpender requiredOracle.
    destruct (hash160 spenderPubKey ==? requiredSpender) eqn:Es.
    + apply bytes_eqb_eq in Es. cbn [fst].
      split; [| congruence].
      destruct (_ ==? _); [destruct (verifySig _ _ _);
        [destruct (checkSig _ _) |] |]; discriminate.
    + apply bytes_eqb_neq in Es. cbn [fst]. tauto.
  - rewrite spend_code. fold requiredSpender requiredOracle.
    destruct (hash160 spenderPubKey ==? requiredSpender) eqn:Es.
    + apply bytes_eqb_eq in Es.
      destruct (hash160 oraclePubKey ==? requiredOracle) eqn:Eo.
      * apply bytes_eqb_eq in Eo. cbn [fst].
        split; [| tauto].
        destruct (verifySig _ _ _); [destruct (checkSig _ _) |]; discriminate.
      * apply bytes_eqb_neq in Eo. cbn [fst]. tauto.
    + apply bytes_eqb_neq in Es. cbn [fst].
      split; [discriminate | tauto].
  - intros Hs Ho Hne. rewrite spend_code. fold requiredSpender requiredOracle.
    assert ((hash160 oraclePubKey ==? requiredSpender) = false) as ->
      by (apply bytes_eqb_neq; congruence).
    now split.
Qed.

(* --------------------------------------------------------------- *)
(** *** The oracle stamp *)

(** C8: for every nonce and every valid action, with a 32-byte double
    hash, the integer the oracle signature is verified against is the
    bigint reading of the digest of the oracle message, byte-order
    reversed, with one zero byte appended; that number is the digest read
    big-endian and unsigned, below 2^256, and it is the only integer at
    which [spend] consults the verifier. *)
Theorem hashInt_transform (a : Action) (this : BlindEscrow)
    (spenderSig : Sig) (spenderPubKey : PubKey)
    (oracleSig : Signature) (oraclePubKey : PubKey) :
  let digest := hash256 (escrowNonce this ++ int2ByteString (actionCode a)) in
  let h := byteString2Int (rev digest ++ [x00]) in
  List.length digest = 32%nat ->
  hashInt' (escrowNonce this) (actionCode a) = h
  /\ h = be_unsigned digest
  /\ 0 <= h < 2 ^ 256
  /\ (hash160 spenderPubKey = partyHash this (spenderIdentity a) ->
      hash160 oraclePubKey = partyHash this (oracleIdentity a) ->
      (fst (spend' spenderSig spenderPubKey oracleSig oraclePubKey
              (actionCode a) this) = OracleSignatureInvalid
       <-> verifySig h oracleSig (pubKey2Point oraclePubKey) = false)).
Proof.
  intros digest h Hlen.
  assert (hashInt' (escrowNonce this) (actionCode a) = h) as Eh.
  { unfold hashInt, oracleMsg. fold digest.
    rewrite reverseByteString_full by (rewrite Hlen; reflexivity).
    reflexivity. }
  assert (h = le_unsigned (rev digest)) as El
    by (unfold h; apply byteString2Int_pad).
  split; [exact Eh |].
  split; [now rewrite El, le_unsigned_rev |].
  split.
  - rewrite El. pose proof (le_unsigned_range (rev digest)) as Hr.
    rewrite length_rev, Hlen in Hr.
    change (256 ^ Z.of_nat 32) with (2 ^ 256) in Hr. exact Hr.
  - intros Hs Ho. rewrite spend_code, Hs, Ho, !bytes_eqb_refl, Eh.
    destruct (verifySig h oracleSig (pubKey2Point oraclePubKey)); cbn [fst].
    + split; [| discriminate].
      destruct (checkSig _ _); discriminate.
    + tauto.
Qed.



(** C6, as the contract has it: the oracle message is the nonce followed
    by the action code in its minimal encoding, which is empty for 0 and
    the single byte 01, 02 or 03 for the other three actions; for nonce
    001122334455aabbcc and ReleaseBySeller (0) the message whose double
    hash the oracle signs is the nonce alone, and for ReleaseByArbiter (1)
    it is the nonce followed by the byte 01. *)
Theorem oracleMsg_encoding (nonce : ByteString) (action : Z) :
  validAction action ->
  oracleMsg nonce action
    = nonce ++ (if action =? 0 then [] else [Z2byte action])
  /\ hashInt' nonce action
     = byteString2Int
         (reverseByteString
            (hash256 (nonce ++ (if action =? 0 then [] else [Z2byte action])))
            32 ++ [x00])
  /\ oracleMsg (lit "001122334455aabbcc") RELEASE_BY_SELLER
     = lit "001122334455aabbcc"
  /\ oracleMsg (lit "001122334455aabbcc") RELEASE_BY_ARBITER
     = lit "001122334455aabbcc01".
Proof.
  intros H.
  assert (oracleMsg nonce action
          = nonce ++ (if action =? 0 then [] else [Z2byte action])) as E
    by (unfold oracleMsg; now rewrite (int2ByteString_action action H)).
  split; [exact E |].
  split; [unfold hashInt; now rewrite E |].
  split; reflexivity.
Qed.

(* --------------------------------------------------------------- *)
(** *** The fields and the two crop methods *)

(** C9: the seller hash, the buyer hash, the arbiter hash and the nonce
    given to the constructor are never modified: every call of [spend],
    [buyCrops] or [sellCrops], whatever its arguments and its outcome,
    leaves the instance as it was, and so does every sequence of calls. *)
Theorem fields_fixed (seller0 buyer0 arbiter0 : PubKeyHash)
    (nonce0 : ByteString)
    (calls : list (Call)) (c : Call) :
  let this := after hash160 hash256 pubKey2Point verifySig checkSig calls
                (constructor seller0 buyer0 arbiter0 nonce0) in
  let this' := snd (invoke hash160 hash256 pubKey2Point verifySig checkSig
                      c this) in
  (seller this = seller0 /\ buyer this = buyer0
   /\ arbiter this = arbiter0 /\ escrowNonce this = nonce0)
  /\ (seller this' = seller0 /\ buyer this' = buyer0
      /\ arbiter this' = arbiter0 /\ escrowNonce this' = nonce0).
Proof.
  assert (forall (k : Call) (e : BlindEscrow),
            snd (invoke hash160 hash256 pubKey2Point verifySig checkSig k e)
            = e) as Hstep.
  { intros [crops | crops | sg pk osg opk action] e; cbn [invoke].
    - unfold buyCrops, assert. now destruct (_ ==? _).
    - unfold sellCrops, assert. now destruct (_ ==? _).
    - unfold spend, loadAddresses, bind, get_this, ret, exit, assert.
      repeat match goal with
             | |- context [if ?b then _ else _] => destruct b
             end; reflexivity. }
  assert (forall (ks : list Call) (e : BlindEscrow),
            after hash160 hash256 pubKey2Point verifySig checkSig ks e = e)
    as Hall.
  { induction ks as [|k ks IH]; intros e; cbn [after];
      [reflexivity | now rewrite Hstep, IH]. }
  intros this this'. subst this'. rewrite Hstep. subst this. rewrite Hall.
  repeat split.
Qed.

(** C10: the contract has two further public methods, [buyCrops] and
    [sellCrops]; each succeeds exactly when the double hash of its
    argument equals the argument, so with 32-byte digests both fail, at
    their assertion, on every argument that is not 32 bytes long. *)
Theorem crops_methods (crops : ByteString) (this : BlindEscrow) :
  (succeeds (buyCrops hash256 crops this) = true <-> hash256 crops = crops)
  /\ (succeeds (sellCrops hash256 crops this) = true <-> hash256 crops = crops)
  /\ (digests32 hash256 -> List.length crops <> 32%nat ->
      buyCrops hash256 crops this = (AssertFailed "incorrect type", this)
      /\ sellCrops hash256 crops this = (AssertFailed "incorrect price", this)).
Proof using hash256.
  unfold buyCrops, sellCrops, assert, succeeds.
  destruct (hash256 crops ==? crops) eqn:E.
  - apply bytes_eqb_eq in E. cbn [fst].
    split; [now split | split; [now split |]].
    intros Hlen Hne. destruct Hne. rewrite <- E. apply Hlen.
  - apply bytes_eqb_neq in E. cbn [fst].
    split; [| split].
    + split; [discriminate | contradiction].
    + split; [discriminate | contradiction].
    + intros _ _. split; reflexivity.
Qed.

End Properties.

(* ================================================================= *)
(** ** Where the stated encoding and the contract part *)

(** C6 as stated does not hold: the action code is not serialised to a
    fixed width.  For nonce 001122334455aabbcc and ReleaseBySeller (0) the
    oracle message is the nonce alone, not the nonce followed by the byte
    00, and the encodings of actions 0 and 1 differ in length. *)
Lemma oracleMsg_no_zero_byte :
  oracleMsg (lit "001122334455aabbcc") RELEASE_BY_SELLER
    = [x00; x11; x22; x33; x44; x55; xaa; xbb; xcc]
  /\ oracleMsg (lit "001122334455aabbcc") RELEASE_BY_SELLER
     <> [x00; x11; x22; x33; x44; x55; xaa; xbb; xcc] ++ [x00]
  /\ List.length (int2ByteString RELEASE_BY_SELLER)
     <> List.length (int2ByteString RELEASE_BY_ARBITER).
Proof. repeat split; vm_compute; discriminate. Qed.



(* ================================================================= *)
(** ** The theorems on the small instance *)

Lemma spend_authorised_witness :
  Toy.spend Toy.buyerKey Toy.buyerKey
    (Toy.stamp (Toy.hashInt Toy.nonce 0) Toy.sellerKey) Toy.sellerKey
    (actionCode ReleaseBySeller) Toy.escrow
  = (Returned tt, Toy.escrow)
  /\ succeeds
       (Toy.spend Toy.buyerKey Toy.buyerKey
          (Toy.stamp (Toy.hashInt Toy.nonce 0) Toy.sellerKey) Toy.sellerKey
          (actionCode ReleaseBySeller) Toy.escrow) = true.
Proof.
  apply (spend_authorised Toy.hash160 Toy.hash256 Toy.pubKey2Point
           Toy.verifySig Toy.checkSig ReleaseBySeller Toy.escrow);
    vm_compute; reflexivity.
Defined.

Lemma identity_table_witness :
  Toy.hash160 Toy.sellerKey = partyHash Toy.escrow (spenderIdentity ReturnByArbiter)
  /\ Toy.hash160 Toy.arbiterKey
     = partyHash Toy.escrow (oracleIdentity ReturnByArbiter).
Proof.
  apply (proj2 (proj2
    (identity_table Toy.hash160 Toy.hash256 Toy.pubKey2Point Toy.verifySig
       Toy.checkSig ReturnByArbiter Toy.escrow Toy.sellerKey Toy.sellerKey
       (Toy.stamp (Toy.hashInt Toy.nonce 3) Toy.arbiterKey) Toy.arbiterKey))).
  vm_compute; reflexivity.
Defined.

Lemma invalid_action_falls_through_witness :
  Toy.spend Toy.buyerKey Toy.buyerKey
    (Toy.stamp (Toy.hashInt Toy.nonce 0) Toy.sellerKey) Toy.sellerKey
    4 Toy.escrow
  = (SpenderIdentityMismatch, Toy.escrow).
Proof.
  apply (invalid_action_falls_through Toy.hash160 Toy.hash256 Toy.pubKey2Point
           Toy.verifySig Toy.checkSig 4 Toy.escrow).
  - unfold validAction; lia.
  - vm_compute; discriminate.
Defined.

Lemma identity_checks_witness :
  fst (Toy.spend Toy.buyerKey Toy.sellerKey
         (Toy.stamp (Toy.hashInt Toy.nonce 0) Toy.sellerKey) Toy.buyerKey
         (actionCode ReleaseBySeller) Toy.escrow)
  = SpenderIdentityMismatch
  /\ succeeds
       (Toy.spend Toy.buyerKey Toy.sellerKey
          (Toy.stamp (Toy.hashInt Toy.nonce 0) Toy.sellerKey) Toy.buyerKey
          (actionCode ReleaseBySeller) Toy.escrow) = false.
Proof.
  apply (proj2 (proj2
    (identity_checks Toy.hash160 Toy.hash256 Toy.pubKey2Point Toy.verifySig
       Toy.checkSig ReleaseBySeller Toy.escrow Toy.buyerKey Toy.buyerKey
       (Toy.stamp (Toy.hashInt Toy.nonce 0) Toy.sellerKey) Toy.sellerKey)));
    vm_compute; [reflexivity | reflexivity | discriminate].
Defined.

Lemma hashInt_transform_witness :
  Toy.hashInt Toy.nonce 0
  = byteString2Int (rev (Toy.hash256 (Toy.nonce ++ int2ByteString 0)) ++ [x00])
  /\ byteString2Int (rev (Toy.hash256 (Toy.nonce ++ int2ByteString 0)) ++ [x00])
     = be_unsigned (Toy.hash256 (Toy.nonce ++ int2ByteString 0)).
Proof.
  pose proof
    (hashInt_transform Toy.hash160 Toy.hash256 Toy.pubKey2Point Toy.verifySig
       Toy.checkSig ReleaseBySeller Toy.escrow Toy.buyerKey Toy.buyerKey
       (Toy.stamp (Toy.hashInt Toy.nonce 0) Toy.sellerKey) Toy.sellerKey
       eq_refl) as (H1 & H2 & _).
  split; [exact H1 | exact H2].
Defined.



Lemma oracleMsg_encoding_witness :
  oracleMsg Toy.nonce 3 = Toy.nonce ++ [x03].
Proof.
  apply (oracleMsg_encoding Toy.hash256 Toy.nonce 3).
  unfold validAction; lia.
Defined.

Lemma crops_methods_witness :
  buyCrops Toy.hash256 [x01] Toy.escrow
    = (AssertFailed "incorrect type", Toy.escrow)
  /\ sellCrops Toy.hash256 [x01] Toy.escrow
     = (AssertFailed "incorrect price", Toy.escrow).
Proof.
  apply (proj2 (proj2 (crops_methods Toy.hash256 [x01] Toy.escrow)));
    [exact Toy_digests32 | discriminate].
Defined.

(* ================================================================= *)
(** ** More on the byte-string built-ins *)

Lemma Z2byte_byte2Z (b : byte) : Z2byte (byte2Z b) = b.
Proof.
  unfold Z2byte. pose proof (byte2Z_range b) as Hr.
  rewrite Z.mod_small by exact Hr.
  unfold byte2Z. now rewrite N2Z.id, Byte.of_to_N.
Qed.

Lemma byte2Z_Z2byte (z : Z) : byte2Z (Z2byte z) = z mod 256.
Proof.
  unfold Z2byte, byte2Z.
  pose proof (Z.mod_pos_bound z 256 eq_refl) as Hr.
  destruct (Byte.of_N (Z.to_N (z mod 256))) as [b |] eqn:E.
  - apply Byte.to_of_N in E. rewrite E. lia.
  - apply Byte.of_N_None_iff in E. lia.
Qed.

Lemma le_magnitude_value (fuel : nat) (n : Z) :
  0 <= n < 256 ^ Z.of_nat fuel -> le_unsigned (le_magnitude fuel n) = n.
Proof.
  revert n; induction fuel as [|fuel IH]; intros n Hn.
  - change (256 ^ Z.of_nat 0) with 1 in Hn. cbn [le_magnitude le_unsigned]. lia.
  - cbn [le_magnitude]. destruct (Z.leb_spec n 0) as [H0 | H0].
    + cbn [le_unsigned]. lia.
    + cbn [le_unsigned]. rewrite byte2Z_Z2byte, Z.mod_mod by lia.
      rewrite Nat2Z.inj_succ, Z.pow_succ_r in Hn by lia.
      rewrite IH.
      * pose proof (Z.div_mod n 256). lia.
      * split; [apply Z.div_pos; lia |].
        apply Z.div_lt_upper_bound; lia.
Qed.

Lemma magnitude_fits (m : Z) :
  0 <= m -> m < 256 ^ Z.of_nat (S (Z.to_nat (Z.log2 m))).
Proof.
  intros Hm. rewrite Nat2Z.inj_succ, Z2Nat.id by apply Z.log2_nonneg.
  destruct (Z.eq_dec m 0) as [-> | Hnz]; [reflexivity |].
  pose proof (Z.log2_spec m ltac:(lia)) as [_ Hup].
  eapply Z.lt_le_trans; [exact Hup |].
  change 256 with (2 ^ 8). rewrite <- Z.pow_mul_r by (pose proof (Z.log2_nonneg m); lia).
  apply Z.pow_le_mono_r; pose proof (Z.log2_nonneg m); lia.
Qed.

(** X1: [byteString2Int] reads back what [int2ByteString] writes, for
    every integer, negative ones and zero included; so the encoding is
    injective, and only zero is encoded by the empty byte string. *)
Theorem int2ByteString_roundtrip (n : Z) :
  byteString2Int (int2ByteString n) = n
  /\ (forall n', int2ByteString n = int2ByteString n' -> n = n')
  /\ (int2ByteString n = [] <-> n = 0).
Proof.
  assert (forall k, byteString2Int (int2ByteString k) = k) as RT.
  { intros k. unfold int2ByteString.
    set (m := Z.abs k).
    set (mag := le_magnitude (S (Z.to_nat (Z.log2 m))) m).
    assert (le_unsigned mag = m) as Hval.
    { apply le_magnitude_value. split; [apply Z.abs_nonneg |].
      apply magnitude_fits, Z.abs_nonneg. }
    unfold withSign. destruct (rev mag) as [|msb lower] eqn:Erev.
    - apply (f_equal (@rev byte)) in Erev. rewrite rev_involutive in Erev.
      rewrite Erev in Hval. cbn in Hval. cbn. subst m. lia.
    - assert (mag = rev lower ++ [msb]) as Emag.
      { rewrite <- (rev_involutive mag), Erev. reflexivity. }
      destruct (Z.leb_spec 128 (byte2Z msb)) as [Hhi | Hlo];
        destruct (Z.ltb_spec k 0) as [Hneg | Hpos].
      + unfold byteString2Int. rewrite rev_app_distr, Erev. cbn [rev app].
        change (128 <=? byte2Z x80) with true. cbv iota.
        change (Z2byte (byte2Z x80 - 128)) with x00.
        cbn [rev]. rewrite <- Emag, le_unsigned_app, Hval.
        change (le_unsigned [x00]) with 0. subst m. lia.
      + rewrite byteString2Int_pad, Hval. subst m. lia.
      + unfold byteString2Int. rewrite rev_involutive.
        pose proof (byte2Z_range msb) as Hr.
        rewrite byte2Z_Z2byte, Z.mod_small by lia.
        destruct (Z.leb_spec 128 (byte2Z msb + 128)) as [_ | ?]; [| lia].
        replace (byte2Z msb + 128 - 128) with (byte2Z msb) by lia.
        rewrite Z2byte_byte2Z. rewrite <- Erev, rev_involutive, Hval.
        subst m. lia.
      + unfold byteString2Int. rewrite Erev.
        destruct (Z.leb_spec 128 (byte2Z msb)) as [? | _]; [lia |].
        rewrite Hval. subst m. lia. }
  split; [apply RT |]. split.
  - intros n' E. rewrite <- (RT n), E. apply RT.
  - split; [| now intros ->].
    intros E. rewrite <- (RT n), E. reflexivity.
Qed.

(* ================================================================= *)
(** ** More on [spend] *)

Section Authorisation.

Variable hash160 : ByteString -> PubKeyHash.
Variable hash256 : ByteString -> ByteString.
Variable pubKey2Point : PubKey -> Point.
Variable verifySig : Z -> Signature -> Point -> bool.
Variable checkSig : Sig -> PubKey -> bool.

Local Abbreviation spend'' :=
  (spend hash160 hash256 pubKey2Point verifySig checkSig).

(** The identities [spend] compares the key hashes with: those of the
    table for the four codes, twenty zero bytes for any other code. *)
Lemma spend_accepts (this : BlindEscrow) (spenderSig : Sig)
    (spenderPubKey : PubKey) (oracleSig : Signature) (oraclePubKey : PubKey)
    (action : Z) :
  succeeds (spend'' spenderSig spenderPubKey oracleSig oraclePubKey action this)
    = true
  <-> ((exists a : Action,
          action = actionCode a
          /\ hash160 spenderPubKey = partyHash this (spenderIdentity a)
          /\ hash160 oraclePubKey = partyHash this (oracleIdentity a))
       \/ (~ validAction action
           /\ hash160 spenderPubKey = zeroHash
           /\ hash160 oraclePubKey = zeroHash))
      /\ verifySig (hashInt hash256 (escrowNonce this) action) oracleSig
           (pubKey2Point oraclePubKey) = true
      /\ checkSig spenderSig spenderPubKey = true.
Proof.
  assert (validAction action \/ ~ validAction action) as [Hv | Hn]
    by (unfold validAction; lia).
  - destruct (proj1 (validAction_code action) Hv) as [a ->].
    rewrite spend_code. unfold succeeds. cbn [fst]. split.
    + intros H.
      destruct (hash160 spenderPubKey ==? _) eqn:Es; [| discriminate].
      destruct (hash160 oraclePubKey ==? _) eqn:Eo; [| discriminate].
      destruct (verifySig _ _ _) eqn:Ev; [| discriminate].
      destruct (checkSig _ _) eqn:Ec; [| discriminate].
      apply bytes_eqb_eq in Es, Eo.
      split; [left; exists a; auto | auto].
    + intros ([(a' & E & Hs & Ho) | (Hn & _)] & Hver & Hc);
        [| contradiction].
      assert (a' = a) as ->
        by (destruct a, a'; (reflexivity || discriminate E)).
      now rewrite Hs, Ho, !bytes_eqb_refl, Hver, Hc.
  - rewrite (spend_invalid _ _ _ _ _ _ _ _ _ _ _ Hn).
    unfold succeeds. cbn [fst]. split.
    + intros H.
      destruct (hash160 spenderPubKey ==? _) eqn:Es; [| discriminate].
      destruct (hash160 oraclePubKey ==? _) eqn:Eo; [| discriminate].
      destruct (verifySig _ _ _) eqn:Ev; [| discriminate].
      destruct (checkSig _ _) eqn:Ec; [| discriminate].
      apply bytes_eqb_eq in Es, Eo. auto.
    + intros ([(a & -> & _) | (_ & Hs & Ho)] & Hver & Hc).
      * destruct Hn. apply validAction_code. now exists a.
      * now rewrite Hs, Ho, !bytes_eqb_refl, Hver, Hc.
Qed.

(** X2: [spend] authorises exactly the requests whose two keys hash to
    the identities it compares them with, whose oracle signature verifies
    over the integer of nonce and action, and whose spender signature
    passes the transaction check.  For the four codes those identities are
    the spender and oracle of the table; for any other code [exit(false)]
    returns and they are twenty zero bytes, so such a request is
    authorised exactly when both keys hash to twenty zero bytes and both
    signatures check. *)
Theorem spend_succeeds_iff (this : BlindEscrow) (spenderSig : Sig)
    (spenderPubKey : PubKey) (oracleSig : Signature) (oraclePubKey : PubKey)
    (action : Z) :
  succeeds (spend'' spenderSig spenderPubKey oracleSig oraclePubKey action this)
    = true
  <-> ((exists a : Action,
          action = actionCode a
          /\ hash160 spenderPubKey = partyHash this (spenderIdentity a)
          /\ hash160 oraclePubKey = partyHash this (oracleIdentity a))
       \/ (~ validAction action
           /\ hash160 spenderPubKey = zeroHash
           /\ hash160 oraclePubKey = zeroHash))
      /\ verifySig (hashInt hash256 (escrowNonce this) action) oracleSig
           (pubKey2Point oraclePubKey) = true
      /\ checkSig spenderSig spenderPubKey = true.
Proof. apply spend_accepts. Qed.

(** X4: the outcome of [spend] depends on the instance only through the
    nonce and the two identities the action selects: the party the action
    leaves out has no influence on it. *)
Theorem spend_ignores_third_party (a : Action) (this other : BlindEscrow)
    (spenderSig : Sig) (spenderPubKey : PubKey) (oracleSig : Signature)
    (oraclePubKey : PubKey) :
  partyHash this (spenderIdentity a) = partyHash other (spenderIdentity a) ->
  partyHash this (oracleIdentity a) = partyHash other (oracleIdentity a) ->
  escrowNonce this = escrowNonce other ->
  fst (spend'' spenderSig spenderPubKey oracleSig oraclePubKey (actionCode a)
         this)
  = fst (spend'' spenderSig spenderPubKey oracleSig oraclePubKey
           (actionCode a) other).
Proof.
  intros Hs Ho Hn. rewrite !spend_code, Hs, Ho, Hn. reflexivity.
Qed.

End Authorisation.

(** X5: the oracle stamp is not tied to the spending transaction: when a
    spend succeeds, the same stamp, key pair and action succeed again under
    any other transaction check, with any spender signature that check
    accepts. *)
Theorem stamp_reusable (hash160 : ByteString -> PubKeyHash)
    (hash256 : ByteString -> ByteString) (pubKey2Point : PubKey -> Point)
    (verifySig : Z -> Signature -> Point -> bool)
    (checkSig checkSig' : Sig -> PubKey -> bool)
    (this : BlindEscrow) (spenderSig spenderSig' : Sig)
    (spenderPubKey : PubKey) (oracleSig : Signature) (oraclePubKey : PubKey)
    (action : Z) :
  succeeds (spend hash160 hash256 pubKey2Point verifySig checkSig
              spenderSig spenderPubKey oracleSig oraclePubKey action this)
    = true ->
  checkSig' spenderSig' spenderPubKey = true ->
  succeeds (spend hash160 hash256 pubKey2Point verifySig checkSig'
              spenderSig' spenderPubKey oracleSig oraclePubKey action this)
    = true.
Proof.
  intros H Hc. apply spend_accepts in H as (Hid & Hv & _).
  apply spend_accepts. auto.
Qed.

Lemma spend_ignores_third_party_witness :
  fst (Toy.spend Toy.buyerKey Toy.buyerKey
         (Toy.stamp (Toy.hashInt Toy.nonce 0) Toy.sellerKey) Toy.sellerKey
         (actionCode ReleaseBySeller) Toy.escrow)
  = fst (Toy.spend Toy.buyerKey Toy.buyerKey
           (Toy.stamp (Toy.hashInt Toy.nonce 0) Toy.sellerKey) Toy.sellerKey
           (actionCode ReleaseBySeller)
           (constructor (Toy.hash160 Toy.sellerKey) (Toy.hash160 Toy.buyerKey)
              [x99] Toy.nonce)).
Proof.
  apply (spend_ignores_third_party Toy.hash160 Toy.hash256 Toy.pubKey2Point
           Toy.verifySig Toy.checkSig ReleaseBySeller); reflexivity.
Defined.

Lemma stamp_reusable_witness :
  succeeds
    (spend Toy.hash160 Toy.hash256 Toy.pubKey2Point Toy.verifySig
       (fun sg k => Toy.checkSig (rev sg) k)
       (rev Toy.buyerKey) Toy.buyerKey
       (Toy.stamp (Toy.hashInt Toy.nonce 0) Toy.sellerKey) Toy.sellerKey
       0 Toy.escrow) = true.
Proof.
  apply (stamp_reusable Toy.hash160 Toy.hash256 Toy.pubKey2Point
           Toy.verifySig Toy.checkSig (fun sg k => Toy.checkSig (rev sg) k)
           Toy.escrow Toy.buyerKey (rev Toy.buyerKey));
    vm_compute; reflexivity.
Defined.

(* ================================================================= *)
(** ** The crop market *)

Section Market.

Variable number : Type.
Variable zero one c002 : number.
Variable leb ltb : number -> number -> bool.
Variable add sub mul : number -> number -> number.
Variable floor : number -> number.
Variable toKey : number -> string.

Local Abbreviation Market := (CropMarket.CropMarket number).
Local Abbreviation Crop := (CropMarket.Crop number).
Local Abbreviation lookup := (CropMarket.lookup number).
Local Abbreviation store := (CropMarket.store number).
Local Abbreviation crops := (CropMarket.crops number).
Local Abbreviation cropId := (CropMarket.cropId number).
Local Abbreviation sellCrop := (CropMarket.sellCrop number zero one leb add toKey).
Local Abbreviation buyCrop :=
  (CropMarket.buyCrop number zero c002 leb ltb add sub mul floor toKey).
Local Abbreviation invoke :=
  (CropMarket.invoke number zero one c002 leb ltb add sub mul floor toKey).

Lemma lookup_store_same (k : string) (v : Crop) (m : CropMarket.Crops number) :
  lookup k (store k v m) = Some v.
Proof.
  induction m as [|[k' v'] m IH]; cbn [CropMarket.store CropMarket.lookup].
  - now rewrite String.eqb_refl.
  - destruct (String.eqb k k') eqn:E; cbn [CropMarket.lookup].
    + now rewrite String.eqb_refl.
    + now rewrite E.
Qed.

Lemma lookup_store_other (k k' : string) (v : Crop)
    (m : CropMarket.Crops number) :
  k' <> k -> lookup k' (store k v m) = lookup k' m.
Proof.
  intros Hne. apply String.eqb_neq in Hne.
  induction m as [|[k0 v0] m IH]; cbn [CropMarket.store CropMarket.lookup].
  - now rewrite Hne.
  - destruct (String.eqb k k0) eqn:E; cbn [CropMarket.lookup].
    + apply String.eqb_eq in E. subst k0. now rewrite Hne.
    + now rewrite IH.
Qed.

Lemma keys_store_present (k : string) (v : Crop) (m : CropMarket.Crops number) :
  lookup k m <> None -> map fst (store k v m) = map fst m.
Proof.
  induction m as [|[k0 v0] m IH]; cbn [CropMarket.store CropMarket.lookup].
  - congruence.
  - destruct (String.eqb k k0) eqn:E; cbn [map fst].
    + apply String.eqb_eq in E. now subst.
    + intros H. now rewrite IH.
Qed.

(** X6: [sellCrop] throws exactly when the weight or the price per unit
    is [<= 0], the weight being examined first; otherwise it advances the
    counter by one, files the crop with the four given fields under the new
    id, leaves every other entry as it was and logs one CropAdded line. *)
Theorem sellCrop_behaviour (name : string) (weight pricePerUnit : number)
    (seller : string) (this : Market) :
  let newId := add (cropId this) one in
  let res := sellCrop name weight pricePerUnit seller this in
  (leb weight zero = true ->
   res = (CropMarket.Throw "Weight must be greater than 0", this, []))
  /\ (leb weight zero = false -> leb pricePerUnit zero = true ->
      res = (CropMarket.Throw "Price per unit must be greater than 0",
             this, []))
  /\ (leb weight zero = false -> leb pricePerUnit zero = false ->
      fst (fst res) = CropMarket.Normal
      /\ cropId (snd (fst res)) = newId
      /\ lookup (toKey newId) (crops (snd (fst res)))
         = Some {| CropMarket.name := name; CropMarket.weight := weight;
                   CropMarket.pricePerUnit := pricePerUnit;
                   CropMarket.seller := seller |}
      /\ (forall k, k <> toKey newId ->
            lookup k (crops (snd (fst res))) = lookup k (crops this))
      /\ snd res
         = [CropMarket.LogCropAdded number newId name weight pricePerUnit
              seller]).
Proof.
  intros newId res. subst res newId. unfold CropMarket.sellCrop.
  split; [| split].
  - intros ->. reflexivity.
  - intros -> ->. reflexivity.
  - intros -> ->. cbn.
    split; [reflexivity |]. split; [reflexivity |].
    split; [apply lookup_store_same |].
    split; [| reflexivity].
    intros k Hk. now apply lookup_store_other.
Qed.

(** X7: [buyCrop] examines, in this order, that the crop exists, that the
    weight asked is not [<= 0] and that the crop holds at least that
    weight, and throws at the first that fails; an unknown id is reported
    whatever the weight. *)
Theorem buyCrop_rejections (id weight : number) (buyer : string)
    (value : number) (this : Market) :
  let res := buyCrop id weight buyer value this in
  (lookup (toKey id) (crops this) = None ->
   res = (CropMarket.Throw "Crop does not exist", this, []))
  /\ (forall crop, lookup (toKey id) (crops this) = Some crop ->
      (leb weight zero = true ->
       res = (CropMarket.Throw "Weight must be greater than 0", this, []))
      /\ (leb weight zero = false ->
          ltb (CropMarket.weight number crop) weight = true ->
          res = (CropMarket.Throw "Not enough Weight available", this, []))
      /\ (leb weight zero = false ->
          ltb (CropMarket.weight number crop) weight = false ->
          fst (fst res) = CropMarket.Normal)).
Proof.
  intros res. subst res. unfold CropMarket.buyCrop, CropMarket.weightOf.
  split.
  - intros ->. reflexivity.
  - intros crop ->. split; [| split].
    + intros ->. reflexivity.
    + intros -> ->. reflexivity.
    + intros -> ->. reflexivity.
Qed.

(** X8: a call that throws has changed nothing and logged nothing: both
    methods raise their exceptions before their first effect. *)
Theorem throw_leaves_market (c : CropMarket.Call number) (this : Market)
    (message : string) :
  fst (fst (invoke c this)) = CropMarket.Throw message ->
  invoke c this = (CropMarket.Throw message, this, []).
Proof.
  destruct c as [n w p sl | i w b v]; cbn [CropMarket.invoke].
  - unfold CropMarket.sellCrop.
    destruct (leb w zero); [intros [= <-]; reflexivity |].
    destruct (leb p zero); [intros [= <-]; reflexivity |].
    discriminate.
  - unfold CropMarket.buyCrop.
    destruct (lookup (toKey i) (crops this)) as [crop |];
      [| intros [= <-]; reflexivity].
    destruct (leb w zero); [intros [= <-]; reflexivity |].
    destruct (ltb _ w); [intros [= <-]; reflexivity |].
    discriminate.
Qed.

(** X9: a purchase that goes through changes one thing in the market,
    the weight of the crop bought, which drops by the weight asked: the
    crop keeps its name, price and seller, every other crop is untouched,
    no entry is added or removed and the counter stays. *)
Theorem buyCrop_effect (id weight : number) (buyer : string) (value : number)
    (this : Market) (crop : Crop) :
  lookup (toKey id) (crops this) = Some crop ->
  leb weight zero = false ->
  ltb (CropMarket.weight number crop) weight = false ->
  let this' := snd (fst (buyCrop id weight buyer value this)) in
  lookup (toKey id) (crops this')
    = Some {| CropMarket.name := CropMarket.name number crop;
              CropMarket.weight := sub (CropMarket.weight number crop) weight;
              CropMarket.pricePerUnit := CropMarket.pricePerUnit number crop;
              CropMarket.seller := CropMarket.seller number crop |}
  /\ (forall k, k <> toKey id -> lookup k (crops this') = lookup k (crops this))
  /\ map fst (crops this') = map fst (crops this)
  /\ cropId this' = cropId this.
Proof.
  intros Hl Hw Hs this'. subst this'.
  unfold CropMarket.buyCrop, CropMarket.weightOf, CropMarket.cropIdOf.
  rewrite Hl, Hw, Hs. cbn [fst snd CropMarket.crops CropMarket.cropId].
  split; [apply lookup_store_same |].
  split; [intros k Hk; now apply lookup_store_other |].
  split; [| reflexivity].
  apply keys_store_present. congruence.
Qed.

(** X10: [buyCrop] never compares the value paid with the price: whether
    the call throws, what the market becomes and what the seller and the
    intermediary receive are the same for every value and every buyer; on
    success the seller is sent the total price less the floor of its 0.02
    share and the intermediary that share, and the value only decides
    whether a third transfer, to the buyer, is logged. *)
Theorem buyCrop_ignores_value (id weight : number) (buyer buyer' : string)
    (value value' : number) (this : Market) :
  let res := buyCrop id weight buyer value this in
  let res' := buyCrop id weight buyer' value' this in
  fst res = fst res'
  /\ firstn 2 (snd res) = firstn 2 (snd res')
  /\ (fst (fst res) = CropMarket.Normal ->
      exists crop, lookup (toKey id) (crops this) = Some crop
        /\ let totalPrice := mul (CropMarket.pricePerUnit number crop) weight in
           let commissionFee := floor (mul totalPrice c002) in
           snd res
           = [CropMarket.LogTransfer number (sub totalPrice commissionFee)
                (CropMarket.seller number crop);
              CropMarket.LogTransfer number commissionFee
                CropMarket.intermediary]
             ++ (if ltb (add totalPrice commissionFee) value
                 then [CropMarket.LogTransfer number
                         (sub (sub value totalPrice) commissionFee) buyer]
                 else [])
             ++ [CropMarket.LogCropSold number id weight totalPrice buyer]).
Proof.
  intros res res'. subst res res'. unfold CropMarket.buyCrop.
  destruct (lookup (toKey id) (crops this)) as [crop |];
    [| repeat split; discriminate].
  destruct (leb weight zero); [repeat split; discriminate |].
  destruct (ltb _ weight); [repeat split; discriminate |].
  split; [reflexivity |]. split; [reflexivity |].
  intros _. exists crop. split; reflexivity.
Qed.

(** X11: a crop just listed can be bought at once under the id the
    listing produced: for any weight asked that is not [<= 0] and not above
    the weight listed, [buyCrop] on that id goes through and leaves the
    listed weight less the weight asked. *)
Theorem sell_then_buy (name : string) (weight pricePerUnit : number)
    (seller : string) (asked : number) (buyer : string) (value : number)
    (this : Market) :
  leb weight zero = false -> leb pricePerUnit zero = false ->
  leb asked zero = false -> ltb weight asked = false ->
  let listed := snd (fst (sellCrop name weight pricePerUnit seller this)) in
  let res := buyCrop (cropId listed) asked buyer value listed in
  fst (fst res) = CropMarket.Normal
  /\ lookup (toKey (cropId listed)) (crops (snd (fst res)))
     = Some {| CropMarket.name := name;
               CropMarket.weight := sub weight asked;
               CropMarket.pricePerUnit := pricePerUnit;
               CropMarket.seller := seller |}.
Proof.
  intros Hw Hp Ha Hlt listed res. subst res listed.
  unfold CropMarket.sellCrop. rewrite Hw, Hp.
  cbn [fst snd CropMarket.crops CropMarket.cropId].
  unfold CropMarket.buyCrop, CropMarket.weightOf, CropMarket.cropIdOf.
  cbn [CropMarket.crops CropMarket.cropId].
  rewrite lookup_store_same. cbn [CropMarket.weight].
  rewrite Ha, Hlt. cbn [fst snd CropMarket.crops].
  split; [reflexivity |].
  rewrite lookup_store_same. reflexivity.
Qed.

Lemma buy_step (id weight : number) (buyer : string) (value : number)
    (this : Market) :
  let this' := snd (fst (buyCrop id weight buyer value this)) in
  map fst (crops this') = map fst (crops this)
  /\ cropId this' = cropId this
  /\ (forall k,
        option_map
          (fun c => (CropMarket.name number c, CropMarket.pricePerUnit number c,
                     CropMarket.seller number c))
          (lookup k (crops this'))
        = option_map
            (fun c => (CropMarket.name number c,
                       CropMarket.pricePerUnit number c,
                       CropMarket.seller number c))
            (lookup k (crops this))).
Proof.
  intros this'. subst this'.
  unfold CropMarket.buyCrop, CropMarket.weightOf, CropMarket.cropIdOf.
  destruct (lookup (toKey id) (crops this)) as [crop |] eqn:Hl;
    [| now repeat split].
  destruct (leb weight zero); [now repeat split |].
  destruct (ltb _ weight); [now repeat split |].
  cbn [fst snd CropMarket.crops CropMarket.cropId].
  split; [apply keys_store_present; congruence |].
  split; [reflexivity |].
  intros k. destruct (string_dec k (toKey id)) as [-> | Hne].
  - now rewrite lookup_store_same, Hl.
  - now rewrite lookup_store_other.
Qed.

(** X12: purchases never change what is listed: after any sequence of
    [buyCrop] calls, thrown exceptions caught, the market has the same ids
    in the same order, the same counter, and under each id a crop of the
    same name, price per unit and seller; only weights can have moved. *)
Theorem purchases_keep_listing (calls : list (CropMarket.Call number))
    (this : Market) :
  (forall c, In c calls ->
     exists id weight buyer value, c = CropMarket.BuyCrop number id weight buyer value) ->
  let this' :=
    CropMarket.after number zero one c002 leb ltb add sub mul floor toKey
      calls this in
  map fst (crops this') = map fst (crops this)
  /\ cropId this' = cropId this
  /\ (forall k,
        option_map
          (fun c => (CropMarket.name number c, CropMarket.pricePerUnit number c,
                     CropMarket.seller number c))
          (lookup k (crops this'))
        = option_map
            (fun c => (CropMarket.name number c,
                       CropMarket.pricePerUnit number c,
                       CropMarket.seller number c))
            (lookup k (crops this))).
Proof.
  revert this. induction calls as [|c calls IH]; intros this Hbuy this'.
  - now repeat split.
  - subst this'. cbn [CropMarket.after].
    destruct (Hbuy c (or_introl eq_refl)) as (id & w & b & v & ->).
    cbn [CropMarket.invoke].
    destruct (buy_step id w b v this) as (Hk & Hc & Hs).
    destruct (IH (snd (fst (buyCrop id w b v this)))
                (fun c' Hin => Hbuy c' (or_intror Hin))) as (Hk' & Hc' & Hs').
    split; [now rewrite Hk' |]. split; [now rewrite Hc' |].
    intros k. now rewrite Hs'.
Qed.

End Market.

(* ================================================================= *)
(** ** The crop market on the doubles of the language *)

Lemma ltb_nan_r (a : PrimFloat.float) : PrimFloat.ltb a PrimFloat.nan = false.
Proof.
  rewrite FloatAxioms.ltb_spec.
  change (FloatOps.Prim2SF PrimFloat.nan) with SpecFloat.S754_nan.
  now destruct (FloatOps.Prim2SF a).
Qed.

Lemma ltb_nan_l (a : PrimFloat.float) : PrimFloat.ltb PrimFloat.nan a = false.
Proof.
  rewrite FloatAxioms.ltb_spec.
  change (FloatOps.Prim2SF PrimFloat.nan) with SpecFloat.S754_nan.
  reflexivity.
Qed.

Lemma sub_nan_r (a : PrimFloat.float) :
  PrimFloat.sub a PrimFloat.nan = PrimFloat.nan.
Proof.
  rewrite <- (FloatAxioms.SF2Prim_Prim2SF (PrimFloat.sub a PrimFloat.nan)).
  rewrite FloatAxioms.sub_spec.
  change (FloatOps.Prim2SF PrimFloat.nan) with SpecFloat.S754_nan.
  now destruct (FloatOps.Prim2SF a) as [| | |[] ? ?].
Qed.

Lemma sub_nan_l (a : PrimFloat.float) :
  PrimFloat.sub PrimFloat.nan a = PrimFloat.nan.
Proof.
  rewrite <- (FloatAxioms.SF2Prim_Prim2SF (PrimFloat.sub PrimFloat.nan a)).
  rewrite FloatAxioms.sub_spec.
  change (FloatOps.Prim2SF PrimFloat.nan) with SpecFloat.S754_nan.
  reflexivity.
Qed.

(** X13: the weight checks let NaN through, since every comparison with
    NaN is false: [sellCrop] lists a crop of weight and price NaN, and
    [buyCrop] with weight NaN goes through on any listed crop and leaves
    its weight NaN; a crop whose weight is NaN is then sold at any weight
    asked that is not [<= 0], with no stock check left, and stays NaN.
    Only the comparisons and the subtraction of the doubles matter: the
    floor and the key function are arbitrary. *)
Theorem nan_passes_the_checks
    (floor : PrimFloat.float -> PrimFloat.float)
    (toKey : PrimFloat.float -> string)
    (this : CropMarket.CropMarket PrimFloat.float)
    (name seller : string) (id value asked : PrimFloat.float) (buyer : string)
    (crop : CropMarket.Crop PrimFloat.float) :
  let sellCrop :=
    CropMarket.sellCrop _ PrimFloat.zero PrimFloat.one PrimFloat.leb
      PrimFloat.add toKey in
  let buyCrop :=
    CropMarket.buyCrop _ PrimFloat.zero Float64.c002 PrimFloat.leb
      PrimFloat.ltb PrimFloat.add PrimFloat.sub PrimFloat.mul floor toKey in
  fst (fst (sellCrop name PrimFloat.nan PrimFloat.nan seller this))
    = CropMarket.Normal
  /\ (CropMarket.lookup _ (toKey id) (CropMarket.crops _ this) = Some crop ->
      let res := buyCrop id PrimFloat.nan buyer value this in
      fst (fst res) = CropMarket.Normal
      /\ option_map (CropMarket.weight _)
           (CropMarket.lookup _ (toKey id)
              (CropMarket.crops _ (snd (fst res))))
         = Some PrimFloat.nan)
  /\ (CropMarket.lookup _ (toKey id) (CropMarket.crops _ this) = Some crop ->
      CropMarket.weight _ crop = PrimFloat.nan ->
      PrimFloat.leb asked PrimFloat.zero = false ->
      let res := buyCrop id asked buyer value this in
      fst (fst res) = CropMarket.Normal
      /\ option_map (CropMarket.weight _)
           (CropMarket.lookup _ (toKey id)
              (CropMarket.crops _ (snd (fst res))))
         = Some PrimFloat.nan).
Proof.
  intros sellCrop buyCrop. subst sellCrop buyCrop.
  split; [reflexivity |]. split.
  - intros Hl res. subst res.
    unfold CropMarket.buyCrop, CropMarket.weightOf.
    rewrite Hl. change (PrimFloat.leb PrimFloat.nan PrimFloat.zero) with false.
    cbv iota. rewrite ltb_nan_r.
    cbn [fst snd CropMarket.crops].
    rewrite lookup_store_same. cbn [option_map CropMarket.weight].
    now rewrite sub_nan_r.
  - intros Hl Hn Ha res. subst res.
    unfold CropMarket.buyCrop, CropMarket.weightOf.
    rewrite Hl, Ha, Hn, ltb_nan_l.
    cbn [fst snd CropMarket.crops].
    rewrite lookup_store_same. cbn [option_map CropMarket.weight].
    now rewrite sub_nan_l.
Qed.

(** *** Runs on the market of the test *)

Import PrimFloat.

Lemma sellCrop_behaviour_witness :
  CropMarket.cropId _ Float64.rice = 1%float
  /\ CropMarket.lookup _ "1" (CropMarket.crops _ Float64.rice)
     = Some {| CropMarket.name := "Rice"; CropMarket.weight := 100%float;
               CropMarket.pricePerUnit := 50%float;
               CropMarket.seller := "0x1234567890abcdef" |}.
Proof.
  destruct (sellCrop_behaviour PrimFloat.float PrimFloat.zero PrimFloat.one
              PrimFloat.leb PrimFloat.add Float64.toKey
              "Rice" 100%float 50%float "0x1234567890abcdef" Float64.new)
    as (_ & _ & H).
  destruct (H eq_refl eq_refl) as (_ & Hid & Hl & _).
  split; [exact Hid | exact Hl].
Defined.

Lemma buyCrop_rejections_witness :
  Float64.buyCrop 1%float 200%float "0xfedcba0987654321" 10000%float
    Float64.rice
  = (CropMarket.Throw "Not enough Weight available", Float64.rice, []).
Proof.
  destruct (buyCrop_rejections PrimFloat.float PrimFloat.zero Float64.c002
              PrimFloat.leb PrimFloat.ltb PrimFloat.add PrimFloat.sub
              PrimFloat.mul Float64.floor Float64.toKey
              1%float 200%float "0xfedcba0987654321" 10000%float Float64.rice)
    as (_ & H).
  destruct (H _ eq_refl) as (_ & Hnot & _).
  exact (Hnot eq_refl eq_refl).
Defined.

Lemma throw_leaves_market_witness :
  Float64.buyCrop 2%float 10%float "0xfedcba0987654321" 500%float Float64.rice
  = (CropMarket.Throw "Crop does not exist", Float64.rice, []).
Proof.
  apply (throw_leaves_market PrimFloat.float PrimFloat.zero PrimFloat.one
           Float64.c002 PrimFloat.leb PrimFloat.ltb PrimFloat.add PrimFloat.sub
           PrimFloat.mul Float64.floor Float64.toKey
           (CropMarket.BuyCrop _ 2%float 10%float "0xfedcba0987654321"
              500%float)).
  reflexivity.
Defined.

Lemma buyCrop_effect_witness :
  CropMarket.lookup _ "1"
    (CropMarket.crops _
       (snd (fst (Float64.buyCrop 1%float 30%float "0xfedcba0987654321"
                    1500%float Float64.rice))))
  = Some {| CropMarket.name := "Rice"; CropMarket.weight := 70%float;
            CropMarket.pricePerUnit := 50%float;
            CropMarket.seller := "0x1234567890abcdef" |}.
Proof.
  apply (buyCrop_effect PrimFloat.float PrimFloat.zero Float64.c002
           PrimFloat.leb PrimFloat.ltb PrimFloat.add PrimFloat.sub
           PrimFloat.mul Float64.floor Float64.toKey
           1%float 30%float "0xfedcba0987654321" 1500%float Float64.rice
           {| CropMarket.name := "Rice"; CropMarket.weight := 100%float;
              CropMarket.pricePerUnit := 50%float;
              CropMarket.seller := "0x1234567890abcdef" |});
    reflexivity.
Defined.

Lemma buyCrop_ignores_value_witness :
  snd (Float64.buyCrop 1%float 30%float "0xfedcba0987654321" 5000%float
         Float64.rice)
  = [CropMarket.LogTransfer _ 1470%float "0x1234567890abcdef";
     CropMarket.LogTransfer _ 30%float CropMarket.intermediary;
     CropMarket.LogTransfer _ 3470%float "0xfedcba0987654321";
     CropMarket.LogCropSold _ 1%float 30%float 1500%float
       "0xfedcba0987654321"].
Proof.
  destruct (buyCrop_ignores_value PrimFloat.float PrimFloat.zero Float64.c002
              PrimFloat.leb PrimFloat.ltb PrimFloat.add PrimFloat.sub
              PrimFloat.mul Float64.floor Float64.toKey
              1%float 30%float "0xfedcba0987654321" "0xfedcba0987654321"
              5000%float 0%float Float64.rice)
    as (_ & _ & H).
  destruct (H eq_refl) as (crop & Hl & Hlog).
  injection Hl as <-. exact Hlog.
Defined.

Lemma sell_then_buy_witness :
  CropMarket.lookup _ "1"
    (CropMarket.crops _
       (snd (fst (Float64.buyCrop 1%float 100%float "0xfedcba0987654321"
                    5000%float Float64.rice))))
  = Some {| CropMarket.name := "Rice"; CropMarket.weight := 0%float;
            CropMarket.pricePerUnit := 50%float;
            CropMarket.seller := "0x1234567890abcdef" |}.
Proof.
  apply (sell_then_buy PrimFloat.float PrimFloat.zero PrimFloat.one
           Float64.c002 PrimFloat.leb PrimFloat.ltb PrimFloat.add PrimFloat.sub
           PrimFloat.mul Float64.floor Float64.toKey
           "Rice" 100%float 50%float "0x1234567890abcdef" 100%float
           "0xfedcba0987654321" 5000%float Float64.new);
    reflexivity.
Defined.

Lemma purchases_keep_listing_witness :
  map fst
    (CropMarket.crops _
       (CropMarket.after _ PrimFloat.zero PrimFloat.one Float64.c002
          PrimFloat.leb PrimFloat.ltb PrimFloat.add PrimFloat.sub
          PrimFloat.mul Float64.floor Float64.toKey
          [CropMarket.BuyCrop _ 1%float 30%float "0xfedcba0987654321" 0%float;
           CropMarket.BuyCrop _ 2%float 30%float "0xfedcba0987654321" 0%float;
           CropMarket.BuyCrop _ 1%float 80%float "0xfedcba0987654321" 0%float]
          Float64.rice))
  = ["1"%string].
Proof.
  apply (purchases_keep_listing PrimFloat.float PrimFloat.zero PrimFloat.one
           Float64.c002 PrimFloat.leb PrimFloat.ltb PrimFloat.add PrimFloat.sub
           PrimFloat.mul Float64.floor Float64.toKey
           [CropMarket.BuyCrop _ 1%float 30%float "0xfedcba0987654321" 0%float;
            CropMarket.BuyCrop _ 2%float 30%float "0xfedcba0987654321" 0%float;
            CropMarket.BuyCrop _ 1%float 80%float "0xfedcba0987654321" 0%float]
           Float64.rice).
  intros c [<- | [<- | [<- | []]]]; repeat eexists.
Defined.

Lemma nan_passes_the_checks_witness :
  option_map (CropMarket.weight _)
    (CropMarket.lookup _ "1"
       (CropMarket.crops _
          (snd (fst (Float64.buyCrop 1%float PrimFloat.nan
                       "0xfedcba0987654321" 0%float Float64.rice)))))
  = Some PrimFloat.nan.
Proof.
  destruct (nan_passes_the_checks Float64.floor Float64.toKey Float64.rice
              "Rice" "0x1234567890abcdef"
              1%float 0%float 1%float "0xfedcba0987654321"
              {| CropMarket.name := "Rice"; CropMarket.weight := 100%float;
                 CropMarket.pricePerUnit := 50%float;
                 CropMarket.seller := "0x1234567890abcdef" |})
    as (_ & H & _).
  exact (proj2 (H eq_refl)).
Defined.

Lemma int2ByteString_roundtrip_witness :
  byteString2Int (int2ByteString (-129)) = -129
  /\ int2ByteString (-129) <> [].
Proof.
  destruct (int2ByteString_roundtrip (-129)) as (Hrt & _ & Hzero).
  split; [exact Hrt |].
  intros E. apply Hzero in E. discriminate E.
Defined.

(** The code outside 0..3 is no bar by itself: with keys whose hash is
    twenty zero bytes, as the empty key's is on the small instance, and
    signatures that check, [spend] with action 4 runs to its end. *)
Example invalid_action_authorised :
  Toy.hash160 [] = zeroHash
  /\ Toy.spend [] [] (Toy.stamp (Toy.hashInt Toy.nonce 4) []) [] 4 Toy.escrow
     = (Returned tt, Toy.escrow).
Proof. split; vm_compute; reflexivity. Qed.
